(** * Selinonlib / parsley: retry strategies, result caches, Mongo adapter,
      global configuration.

    A shallow embedding of the Python sources and the properties of them
    that the design document states.

    Numbers.  The strategy functions are duck-typed over Python numbers:
    [previous_retry * 2] stays an [int] for an [int], [previous_retry / 2]
    is Python 3 true division and yields a [float].  Doubling and halving
    are exact on binary floats (outside overflow and underflow) and
    [int / 2] is exact below 2^53, so the numeric tower is embedded as the
    rationals [Q]: [Qmult] for [*], [Qdiv] for [/].  [Q] carries the
    setoid equality [==]; where a function hands back one of its arguments
    the results are stated with Leibniz equality. *)

From Stdlib Require Import QArith Qminmax Lqa.
From stdpp Require Import gmap strings list fin_maps pretty.

Local Open Scope Z_scope.

(** ** Python values and exceptions *)

(** The exceptions that the embedded code raises. *)
Inductive exception :=
  | TypeError | ValueError | FileNotFoundError | IndexError | KeyError
  | AttributeError | AssertionError | NotImplementedError
  | CacheMissError | ConfigurationError.

(** A call either returns or raises. *)
Inductive result (A : Type) :=
  | Return (a : A)
  | Raise (e : exception).
Arguments Return {A} a.
Arguments Raise {A} e.

(** Sequencing: the first exception raised ends the call. *)
#[export] Instance result_ret : MRet result := λ A a, Return a.
#[export] Instance result_bind : MBind result := λ A B k r,
  match r with
  | Return a => k a
  | Raise e => Raise e
  end.


(** The Python objects that flow through dictionaries and documents. *)
Inductive pyval :=
  | PyNone
  | PyStr (s : string)
  | PyInt (z : Z).

#[export] Instance pyval_eq_dec : EqDecision pyval.
Proof. solve_decision. Defined.

(** ** src/parsley/strategies.py *)

Module Strategies.

(** [x < y] on numbers, as a boolean. *)
Definition Qltb (x y : Q) : bool := negb (Qle_bool y x).

(** Arithmetic on [previous_retry], which is [None] on the first
    scheduling: [None + step] and the like raise [TypeError]. *)
Definition py_add (x : option Q) (y : Q) : result Q :=
  match x with Some a => Return (a + y)%Q | None => Raise TypeError end.

Definition py_sub (x : option Q) (y : Q) : result Q :=
  match x with Some a => Return (a - y)%Q | None => Raise TypeError end.


(** The arm of a strategy that a call runs through. *)
Inductive branch :=
  | Seed         (* [previous_retry is None]: start_retry *)
  | Growth       (* started or fallback nodes seen: interval grows *)
  | Reset        (* no node started: back to start_retry *)
  | Decay        (* no node started: interval shrinks *)
  | Draw.        (* random: no case distinction at all *)

#[export] Instance branch_eq_dec : EqDecision branch.
Proof. solve_decision. Defined.

(** A call, observed: the arm taken and what it returned or raised. *)
Definition outcome : Type := branch * result Q.
Definition retval (o : outcome) : result Q := snd o.

Section strategies.
Context {node : Type}.
Implicit Types (start_retry max_retry step : Q) (previous_retry : option Q).
Implicit Types active_nodes failed_nodes started_nodes fallback_nodes : list node.

(** [len(started_nodes) > 0 or len(fallback_nodes) > 0] *)
Definition progress started_nodes fallback_nodes : bool :=
  (0 <? length started_nodes)%nat || (0 <? length fallback_nodes)%nat.

Definition linear_increase start_retry max_retry step
    previous_retry active_nodes failed_nodes started_nodes fallback_nodes
    : outcome :=
  if progress started_nodes fallback_nodes then
    (Growth,
     retry ← py_add previous_retry step;
     if Qltb max_retry retry then Return max_retry else Return retry)
  else
    (Reset, Return start_retry).

Definition linear_adopt start_retry max_retry step
    previous_retry active_nodes failed_nodes started_nodes fallback_nodes
    : outcome :=
  if progress started_nodes fallback_nodes then
    (Growth,
     retry ← py_add previous_retry step;
     if Qltb max_retry retry then Return max_retry else Return retry)
  else
    (Decay,
     retry ← py_sub previous_retry step;
     if Qltb retry start_retry then Return start_retry else Return retry).

Definition biexponential_increase start_retry max_retry
    previous_retry active_nodes failed_nodes started_nodes fallback_nodes
    : outcome :=
  match previous_retry with
  | None => (Seed, Return start_retry)
  | Some previous =>
    if progress started_nodes fallback_nodes then
      (Growth,
       let retry := (previous * 2)%Q in
       if Qltb max_retry retry then Return max_retry else Return retry)
    else
      (Reset, Return start_retry)
  end.

Definition biexponential_adopt start_retry max_retry
    previous_retry active_nodes failed_nodes started_nodes fallback_nodes
    : outcome :=
  match previous_retry with
  | None => (Seed, Return start_retry)
  | Some previous =>
    if progress started_nodes fallback_nodes then
      (Growth,
       let retry := (previous * 2)%Q in
       if Qltb max_retry retry then Return max_retry else Return retry)
    else
      (Decay,
       let retry := (previous / 2)%Q in
       if Qltb retry start_retry then Return start_retry else Return retry)
  end.


End strategies.



End Strategies.

(** ** selinonlib/caches

    [src/selinonlib/caches/__init__.py] only re-exports [FIFO], [LIFO],
    [MRU], [LRU], [RR] and [CacheMissError]; the modules that implement
    them ([fifo.py], [lifo.py], [mru.py], [lru.py], [rr.py],
    [cacheMissError.py]) are not among the sources.  The cache is therefore
    modelled from the design document (sections 3 and 4.1): one bounded
    key-to-entry mapping shared by the five policies, which differ in which
    event renews an entry's rank and which end of the order is given up. *)

Module Caches.

(** Modelled from the spec: the five eviction policies, the classes
    [FIFO], [LIFO], [LRU], [MRU] and [RR] of the missing modules. *)
Inductive policy := FIFO | LIFO | LRU | MRU | RR.

Section cache.
Context {K : Type} `{Countable K} {V : Type}.

(** Modelled from the spec: a [CacheEntry] of the missing cache modules,
    [{key, value, recency_rank}]; the key is the key of the mapping that
    holds the entry. *)
Record CacheEntry := {
  value : V;
  recency_rank : nat;
}.

(** Modelled from the spec: the state of a cache object of the missing
    modules.  [entries] is the mapping from key to value and rank,
    [sequence] the monotonically increasing counter that ranks are drawn
    from. *)
Record Cache := {
  cache_policy : policy;
  max_cache_size : nat;
  entries : gmap K CacheEntry;
  sequence : nat;
}.

(** Modelled from the spec: the constructors [FIFO(max_cache_size)] etc.
    of the missing modules; a non-positive [max_cache_size] is a
    [ConfigurationError] raised at construction. *)
Definition new (p : policy) (max_cache_size : nat) : result Cache :=
  if (max_cache_size =? 0)%nat then Raise ConfigurationError
  else Return {| cache_policy := p; max_cache_size := max_cache_size;
                 entries := ∅; sequence := 0 |}.

(** Modelled from the spec: [size() -> count] of the missing modules. *)
Definition size (c : Cache) : nat := base.size (entries c).

(** Modelled from the spec: column "Effect of [get] on order" of the
    policy table; the missing [lru.py] and [mru.py] move the entry to the
    most-recently-used position, the others leave the order alone. *)
Definition on_access (p : policy) : bool :=
  match p with
  | LRU | MRU => true
  | FIFO | LIFO | RR => false
  end.

(** Modelled from the spec: column "Effect of [add] (overwrite) on order"
    of the policy table of the missing modules. *)
Definition on_overwrite (p : policy) : bool :=
  match p with
  | LIFO | LRU | MRU => true
  | FIFO | RR => false
  end.

(** Modelled from the spec: "the entry with the oldest time" of the
    missing [fifo.py] and [lru.py]: a binding of least rank. *)
Definition oldest (l : list (K * CacheEntry)) : option (K * CacheEntry) :=
  foldr (λ x acc,
           match acc with
           | None => Some x
           | Some y =>
             if (recency_rank x.2 <=? recency_rank y.2)%nat
             then Some x else Some y
           end) None l.

(** Modelled from the spec: "the entry with the newest time" of the
    missing [lifo.py] and [mru.py]: a binding of greatest rank. *)
Definition newest (l : list (K * CacheEntry)) : option (K * CacheEntry) :=
  foldr (λ x acc,
           match acc with
           | None => Some x
           | Some y =>
             if (recency_rank y.2 <=? recency_rank x.2)%nat
             then Some x else Some y
           end) None l.

(** Modelled from the spec: column "Victim selection" of the policy
    table of the missing modules.  [draw] is the random number that
    [RR] uses to pick among the current entries. *)
Definition choose_victim (p : policy) (draw : nat)
    (m : gmap K CacheEntry) : option K :=
  let l := map_to_list m in
  match p with
  | FIFO | LRU => fst <$> oldest l
  | LIFO | MRU => fst <$> newest l
  | RR => fst <$> l !! (draw `mod` length l)%nat
  end.

(** Modelled from the spec: [add(key, value) -> void] of the missing
    modules.  A present key has its value overwritten, its rank renewed
    as the policy says; a new key, with the cache at capacity, has one
    victim evicted first. *)
Definition add (c : Cache) (key : K) (v : V) (draw : nat) : Cache :=
  let now := sequence c in
  let entries' :=
    match entries c !! key with
    | Some e =>
      <[key := {| value := v;
                  recency_rank := if on_overwrite (cache_policy c)
                                  then now else recency_rank e |}]>
        (entries c)
    | None =>
      let kept :=
        if (max_cache_size c <=? base.size (entries c))%nat then
          match choose_victim (cache_policy c) draw (entries c) with
          | Some victim => delete victim (entries c)
          | None => entries c
          end
        else entries c in
      <[key := {| value := v; recency_rank := now |}]> kept
    end in
  {| cache_policy := cache_policy c; max_cache_size := max_cache_size c;
     entries := entries'; sequence := S now |}.

(** Modelled from the spec: [get(key) -> value] of the missing modules,
    failing with [CacheMiss] ([CacheMissError] of the missing
    [cacheMissError.py]) on an absent key and counting as a use for the
    policies ordered by use. *)
Definition get (c : Cache) (key : K) : result V * Cache :=
  match entries c !! key with
  | None => (Raise CacheMissError, c)
  | Some e =>
    (Return (value e),
     if on_access (cache_policy c) then
       {| cache_policy := cache_policy c;
          max_cache_size := max_cache_size c;
          entries := <[key := {| value := value e;
                                 recency_rank := sequence c |}]> (entries c);
          sequence := S (sequence c) |}
     else c)
  end.

(** Modelled from the spec: a call on a cache of the missing modules,
    for speaking of sequences of calls. *)
Inductive call :=
  | Add (key : K) (v : V) (draw : nat)
  | Get (key : K).

Definition step (c : Cache) (o : call) : Cache :=
  match o with
  | Add key v draw => add c key v draw
  | Get key => (get c key).2
  end.

Definition run (c : Cache) (calls : list call) : Cache :=
  foldl step c calls.


End cache.

Arguments CacheEntry : clear implicits.
Arguments Cache K {_ _} V.
Arguments call : clear implicits.

End Caches.

(** ** src/test/caches/test_lru.py *)

Module TestLRU.
Import Caches.









End TestLRU.

(** ** src/selinonlib/storages/mongo.py *)

Module Mongo.

(** A MongoDB document: a dictionary from field names to values. *)
Abbreviation document := (gmap string pyval).

(** What the adapter sees of pymongo.  The server holds, per database and
    collection name, the documents in insertion order; [MongoClient],
    database and collection objects are handles onto it. *)
Abbreviation server := (gmap (string * string) (list document)).

Record MongoClient := { client_host : string; client_port : Z }.

Record Collection := { of_db : string; of_name : string }.

(** [pymongo.cursor.Cursor]: the documents that a query matched. *)
Record Cursor := { matched : list document }.

Definition documents (srv : server) (coll : Collection) : list document :=
  default [] (srv !! (of_db coll, of_name coll)).

(** [collection.find({'task_id': task_id}, {'_id': 0})]: the documents
    whose [task_id] field equals [task_id], without their [_id]. *)
Definition find (srv : server) (coll : Collection) (task_id : pyval) : Cursor :=
  {| matched :=
       delete "_id" <$>
         filter (λ d : document, d !! "task_id" = Some task_id)
                (documents srv coll) |}.

(** [cursor.count()] *)
Definition count (cursor : Cursor) : nat := length (matched cursor).

(** The truth value of a cursor in [not cursor].  [Cursor] defines neither
    [__bool__] nor [__len__], so Python takes the object to be true
    whatever it matched. *)
Definition Cursor_bool (cursor : Cursor) : bool := true.

(** [cursor[index]]; pymongo raises [IndexError] past the last match. *)
Definition getitem (cursor : Cursor) (index : nat) : result document :=
  match matched cursor !! index with
  | Some record => Return record
  | None => Raise IndexError
  end.

(** [collection.insert(record)]: the server appends the document, giving
    it an [_id] (here the insertion index) when it has none. *)
Definition insert (srv : server) (coll : Collection) (record : document)
    : server :=
  let docs := documents srv coll in
  let stored :=
    match record !! "_id" with
    | Some _ => record
    | None => <["_id" := PyInt (Z.of_nat (length docs))]> record
    end in
  <[(of_db coll, of_name coll) := docs ++ [stored]]> srv.

Record MongoStorage := {
  client : option MongoClient;
  collection : option Collection;
  db : option string;
  host : string;
  port : Z;
  db_name : string;
  collection_name : string;
}.

(** [MongoStorage(db_name, collection_name, host="localhost", port=27017)] *)
Definition __init__ (db_name collection_name : string)
    (host : string) (port : Z) : MongoStorage :=
  {| client := None; collection := None; db := None;
     host := host; port := port;
     db_name := db_name; collection_name := collection_name |}.

Definition is_connected (self : MongoStorage) : bool :=
  bool_decide (client self ≠ None).

Definition connect (self : MongoStorage) : MongoStorage :=
  {| client := Some {| client_host := host self; client_port := port self |};
     db := Some (db_name self);
     collection := Some {| of_db := db_name self;
                           of_name := collection_name self |};
     host := host self; port := port self;
     db_name := db_name self; collection_name := collection_name self |}.

Definition disconnect (self : MongoStorage) : MongoStorage :=
  if is_connected self then
    {| client := None; db := None; collection := None;
       host := host self; port := port self;
       db_name := db_name self; collection_name := collection_name self |}
  else self.

(** [assert cond] *)
Definition assert (cond : bool) : result () :=
  if cond then Return () else Raise AssertionError.

(** [self.collection.<method>]: an attribute of [None] is an
    [AttributeError]. *)
Definition the_collection (self : MongoStorage) : result Collection :=
  match collection self with
  | Some coll => Return coll
  | None => Raise AttributeError
  end.

Definition retrieve (self : MongoStorage) (srv : server)
    (flow_name task_name task_id : pyval) : result pyval :=
  _ ← assert (is_connected self);
  coll ← the_collection self;
  let cursor := find srv coll task_id in
  if (1 <? count cursor)%nat then
    Raise ValueError          (* "Multiple records with same task_id found" *)
  else if negb (Cursor_bool cursor) then
    Raise FileNotFoundError   (* "Record not found in database" *)
  else
    record ← getitem cursor 0;
    match record !! "task_name" with
    | None => Raise KeyError
    | Some name =>
      _ ← assert (bool_decide (task_name = name));
      Return (default PyNone (record !! "result"))
    end.

Definition store (self : MongoStorage) (srv : server)
    (node_args flow_name task_name task_id result_ : pyval)
    : result pyval * server :=
  match assert (is_connected self) with
  | Raise e => (Raise e, srv)
  | Return _ =>
    let record : document :=
      <["flow_name" := flow_name]> (
      <["node_args" := node_args]> (
      <["task_name" := task_name]> (
      <["task_id" := task_id]> (
      <["result" := result_]> ∅)))) in
    match the_collection self with
    | Raise e => (Raise e, srv)
    | Return coll => (Return task_id, insert srv coll record)
    end
  end.

Definition store_error (self : MongoStorage) (srv : server)
    (node_args flow_name task_name task_id exc_info : pyval)
    : result () * server :=
  (Raise NotImplementedError, srv).

(** A connected adapter on database ["selinon"], collection ["results"]. *)
Definition adapter : MongoStorage :=
  connect (__init__ "selinon" "results" "localhost" 27017).

(** A server on which the adapter stored the result of task ["id1"]. *)
Definition one_result : server :=
  (store adapter ∅ PyNone (PyStr "flow1") (PyStr "Task1") (PyStr "id1")
         (PyInt 42)).2.

End Mongo.

(** ** src/parsley/globalConfig.py *)

Module Config.

(** The class attributes of [GlobalConfig]; the class itself is the one
    holder of the settings. *)
Record GlobalConfig := {
  predicates_module : pyval;
  trace : pyval;
  dispatcher_strategy : pyval;
}.

(** The class as its definition leaves it. *)
Definition initial : GlobalConfig :=
  {| predicates_module := PyStr "parsley.predicates";
     trace := PyNone;
     dispatcher_strategy := PyNone |}.

Definition from_dict (cls : GlobalConfig) (d : gmap string pyval)
    : GlobalConfig :=
  match d !! "predicates_module" with
  | Some v =>
    {| predicates_module := v;
       trace := trace cls;
       dispatcher_strategy := dispatcher_strategy cls |}
  | None => cls
  end.

End Config.

(** ** Rescheduling with a strategy

    The module docstring of [strategies.py] fixes how the functions are
    used: [previous_retry] is [None] when scheduling for the first time and
    the value of the previous retry afterwards. *)

Module Scheduling.
Import Strategies.


End Scheduling.

(** * Properties *)

(** ** Retry strategies *)

Module StrategiesProps.
Import Strategies.







Section props.
Context {node : Type}.
Implicit Types (start max step p : Q) (prev : option Q).
Implicit Types a f s fb : list node.






Lemma progress_nonempty s fb : progress s fb = true ↔ s ≠ [] ∨ fb ≠ [].
Proof.
  unfold progress. rewrite orb_true_iff, !Nat.ltb_lt.
  destruct s, fb; simpl; split; intros [?|?]; try lia; try done; auto with lia.
Qed.


(** C3.  [linear_increase], whatever [previous_retry] is, and
    [biexponential_increase] with [previous_retry] set return exactly
    [start_retry] when [started_nodes] and [fallback_nodes] are both
    empty, for all [active_nodes] and [failed_nodes]. *)
Theorem no_progress_resets_to_start start max step prev p a f :
  linear_increase start max step prev a f [] [] = (Reset, Return start) ∧
  biexponential_increase start max (Some p) a f [] [] = (Reset, Return start).
Proof. split; reflexivity. Qed.



End props.




(** Python 3 division: halving 5 gives 5/2, not 2. *)
Example biexponential_adopt_halves_5 :
  retval (biexponential_adopt 1 10 (Some 5%Q) [] [] ([] : list unit) [])
    = Return (5 # 2)%Q.
Proof. reflexivity. Qed.

End StrategiesProps.

(** ** Result caches *)

Module CachesProps.
Import Caches.

Section props.
Context {K : Type} `{Countable K} {V : Type}.
Implicit Types (c : Cache K V) (m : gmap K (CacheEntry V)).
Implicit Types (l : list (K * CacheEntry V)) (calls : list (call K V)).

(** *** Victim selection picks a current entry *)

Lemma oldest_elem l x : oldest l = Some x → x ∈ l.
Proof.
  revert x. induction l as [|y l IH]; intros x; simpl; [done|].
  destruct (oldest l) as [z|] eqn:Hz.
  - case_match; intros [= <-]; [left | right; by apply IH].
  - intros [= <-]. left.
Qed.

Lemma newest_elem l x : newest l = Some x → x ∈ l.
Proof.
  revert x. induction l as [|y l IH]; intros x; simpl; [done|].
  destruct (newest l) as [z|] eqn:Hz.
  - case_match; intros [= <-]; [left | right; by apply IH].
  - intros [= <-]. left.
Qed.

Lemma oldest_is_Some l : l ≠ [] → is_Some (oldest l).
Proof.
  destruct l as [|y l]; [done|]. intros _. simpl.
  destruct (oldest l); [case_match|]; eauto.
Qed.

Lemma newest_is_Some l : l ≠ [] → is_Some (newest l).
Proof.
  destruct l as [|y l]; [done|]. intros _. simpl.
  destruct (newest l); [case_match|]; eauto.
Qed.

Lemma choose_victim_present p draw m victim :
  choose_victim p draw m = Some victim → is_Some (m !! victim).
Proof.
  unfold choose_victim. intros Hv.
  assert (∃ x, x ∈ map_to_list m ∧ x.1 = victim) as ([k e] & Hin & <-).
  { destruct p; apply fmap_Some in Hv as (x & Hx & ->); exists x;
      (split; [|done]);
      eauto using oldest_elem, newest_elem, list_elem_of_lookup_2. }
  apply elem_of_map_to_list in Hin. eauto.
Qed.

Lemma choose_victim_is_Some p draw m :
  m ≠ ∅ → is_Some (choose_victim p draw m).
Proof.
  intros Hne. rewrite <- map_to_list_empty_iff in Hne.
  unfold choose_victim.
  destruct p; apply fmap_is_Some;
    auto using oldest_is_Some, newest_is_Some.
  apply lookup_lt_is_Some_2, Nat.mod_upper_bound.
  by destruct (map_to_list m).
Qed.

(** *** What the calls keep *)

Lemma step_max_cache_size c o : max_cache_size (step c o) = max_cache_size c.
Proof.
  destruct o as [k v d|k]; simpl; [done|].
  unfold get. destruct (entries c !! k); simpl; [|done]. by case_match.
Qed.

Lemma step_policy c o : cache_policy (step c o) = cache_policy c.
Proof.
  destruct o as [k v d|k]; simpl; [done|].
  unfold get. destruct (entries c !! k); simpl; [|done]. by case_match.
Qed.

Lemma run_snoc c calls o : run c (calls ++ [o]) = step (run c calls) o.
Proof. unfold run. by rewrite foldl_app. Qed.

Lemma run_max_cache_size c calls :
  max_cache_size (run c calls) = max_cache_size c.
Proof.
  induction calls as [|o calls IH] using rev_ind; [done|].
  by rewrite run_snoc, step_max_cache_size.
Qed.

Lemma run_policy c calls : cache_policy (run c calls) = cache_policy c.
Proof.
  induction calls as [|o calls IH] using rev_ind; [done|].
  by rewrite run_snoc, step_policy.
Qed.


(** *** Capacity *)

Lemma size_get c key : size (get c key).2 = size c.
Proof.
  unfold get, size. destruct (entries c !! key) eqn:He; simpl; [|done].
  case_match; simpl; [|done]. by apply map_size_insert_Some.
Qed.

Lemma size_add_present c key v draw :
  is_Some (entries c !! key) → size (add c key v draw) = size c.
Proof.
  intros [e He]. unfold add, size; simpl. rewrite He.
  by apply map_size_insert_Some.
Qed.

Lemma size_add_room c key v draw :
  entries c !! key = None → (size c < max_cache_size c)%nat →
  size (add c key v draw) = S (size c).
Proof.
  intros He Hlt. unfold add, size in *; simpl. rewrite He.
  destruct (Nat.leb_spec (max_cache_size c) (base.size (entries c)));
    [lia|].
  by apply map_size_insert_None.
Qed.

(** At capacity a new key costs one entry, the policy's victim, and
    nothing else moves. *)
Lemma add_full c key v draw :
  entries c !! key = None →
  (0 < max_cache_size c)%nat → (max_cache_size c ≤ size c)%nat →
  ∃ victim,
    choose_victim (cache_policy c) draw (entries c) = Some victim ∧
    is_Some (entries c !! victim) ∧ victim ≠ key ∧
    entries (add c key v draw)
      = <[key := {| value := v; recency_rank := sequence c |}]>
          (delete victim (entries c)) ∧
    size (add c key v draw) = size c.
Proof.
  intros He Hpos Hfull. unfold size in *.
  destruct (choose_victim_is_Some (cache_policy c) draw (entries c))
    as [victim Hv].
  { apply map_size_non_empty_iff. lia. }
  pose proof (choose_victim_present _ _ _ _ Hv) as Hin.
  exists victim. split_and!; [done|done| | |].
  - intros ->. rewrite He in Hin. by destruct Hin.
  - unfold add; simpl. rewrite He, Hv.
    by destruct (Nat.leb_spec (max_cache_size c) (base.size (entries c)));
      [|lia].
  - unfold add; simpl. rewrite He, Hv.
    destruct (Nat.leb_spec (max_cache_size c) (base.size (entries c)));
      [|lia].
    rewrite map_size_insert_None by (by apply lookup_delete_None; right).
    rewrite map_size_delete_Some by done.
    assert (base.size (entries c) ≠ 0)%nat by lia. lia.
Qed.

Lemma size_step c o :
  (0 < max_cache_size c)%nat → (size c ≤ max_cache_size c)%nat →
  (size (step c o) ≤ max_cache_size c)%nat.
Proof.
  intros Hpos Hle. destruct o as [k v d|k]; simpl.
  - destruct (entries c !! k) as [e|] eqn:He.
    + rewrite size_add_present; eauto.
    + destruct (decide (size c < max_cache_size c)%nat).
      * rewrite size_add_room; done || lia.
      * destruct (add_full c k v d) as (? & _ & _ & _ & _ & ->); done || lia.
  - by rewrite size_get.
Qed.

Lemma size_run c calls :
  (0 < max_cache_size c)%nat → (size c ≤ max_cache_size c)%nat →
  (size (run c calls) ≤ max_cache_size c)%nat.
Proof.
  intros Hpos. induction calls as [|o calls IH] using rev_ind; [done|].
  intros Hle. rewrite run_snoc.
  rewrite <- (run_max_cache_size c calls) in *. apply size_step; auto.
Qed.

Lemma new_inv p n c0 :
  new p n = Return c0 →
  (0 < n)%nat ∧ max_cache_size c0 = n ∧ cache_policy c0 = p ∧
  entries c0 = ∅.
Proof.
  unfold new. destruct (Nat.eqb_spec n 0); [done|].
  intros [= <-]; simpl. split_and!; done || lia.
Qed.

(** *** Stored values *)




(** C2.  On a cache constructed with a positive [max_cache_size], after
    any sequence of calls [size() <= max_cache_size]; and an [add] of a
    new key to a cache that is full evicts exactly one entry that was
    there, keeps every other one, and leaves the size at
    [max_cache_size].  This holds for each of the five policies. *)
Theorem size_bounded_one_eviction p n c0 calls :
  new p n = Return c0 →
  let c := run c0 calls in
  (size c ≤ n)%nat ∧
  ∀ key v draw,
    entries c !! key = None → size c = n →
    ∃ victim,
      is_Some (entries c !! victim) ∧
      entries (add c key v draw) !! victim = None ∧
      (∀ key', key' ≠ key → key' ≠ victim →
         entries (add c key v draw) !! key' = entries c !! key') ∧
      (value <$> entries (add c key v draw) !! key) = Some v ∧
      size (add c key v draw) = n.
Proof.
  intros (Hpos & Hmax & _ & Hempty)%new_inv c.
  assert (max_cache_size c = n) as Hn.
  { unfold c. by rewrite run_max_cache_size. }
  split.
  - rewrite <- Hmax. apply size_run; [lia|].
    unfold size. rewrite Hempty, map_size_empty. lia.
  - intros key v draw Hnew Hfull.
    destruct (add_full c key v draw)
      as (victim & _ & Hin & Hne & -> & ->); [done|lia|lia|].
    exists victim. split_and!; [done| | | |done].
    + rewrite lookup_insert_ne by done. apply lookup_delete_eq.
    + intros key' ??. by rewrite lookup_insert_ne, lookup_delete_ne.
    + by rewrite lookup_insert_eq.
Qed.


End props.

(** An [LRU] cache of two entries that two [add]s have filled. *)
Lemma size_bounded_one_eviction_witness :
  ∃ c0 : Cache Z string,
    new LRU 2 = Return c0 ∧
    let c := run c0 [Add 1 "item1" 0%nat; Add 2 "item2" 0%nat] in
    (size c ≤ 2)%nat ∧
    ∀ key v draw,
      entries c !! key = None → size c = 2%nat →
      ∃ victim,
        is_Some (entries c !! victim) ∧
        entries (add c key v draw) !! victim = None ∧
        (∀ key', key' ≠ key → key' ≠ victim →
           entries (add c key v draw) !! key' = entries c !! key') ∧
        (value <$> entries (add c key v draw) !! key) = Some v ∧
        size (add c key v draw) = 2%nat.
Proof.
  eexists. split; [reflexivity|].
  apply (size_bounded_one_eviction LRU 2 _
           [Add 1 "item1" 0%nat; Add 2 "item2" 0%nat]).
  reflexivity.
Defined.


Import TestLRU.


End CachesProps.

(** ** MongoDB adapter *)

Module MongoProps.
Import Mongo.

Lemma connect_is_connected self : is_connected (connect self) = true.
Proof. reflexivity. Qed.

(** The [FileNotFoundError] arm of [retrieve] is dead. *)
Lemma retrieve_never_FileNotFoundError self srv flow_name task_name task_id :
  retrieve self srv flow_name task_name task_id ≠ Raise FileNotFoundError.
Proof.
  unfold retrieve, assert, the_collection, getitem.
  destruct (is_connected self); [|done].
  destruct (collection self) as [coll|]; [|done].
  cbn [mbind result_bind]. generalize (find srv coll task_id) as cursor.
  intros cursor. case_match; [done|]. unfold Cursor_bool; cbn [negb].
  destruct (matched cursor !! 0%nat) as [record|]; [|done].
  cbn [mbind result_bind].
  destruct (record !! "task_name"); [|done].
  by case_bool_decide.
Qed.

Lemma retrieve_ambiguous self srv coll flow_name task_name task_id :
  is_connected self = true → collection self = Some coll →
  (1 < count (find srv coll task_id))%nat →
  retrieve self srv flow_name task_name task_id = Raise ValueError.
Proof.
  intros Hc Hcoll Hcount. unfold retrieve, the_collection.
  rewrite Hc, Hcoll. cbn [mbind result_bind].
  by destruct (Nat.ltb_spec 1 (count (find srv coll task_id))); [|lia].
Qed.

Lemma retrieve_absent self srv coll flow_name task_name task_id :
  is_connected self = true → collection self = Some coll →
  count (find srv coll task_id) = 0%nat →
  retrieve self srv flow_name task_name task_id = Raise IndexError.
Proof.
  intros Hc Hcoll Hcount. unfold retrieve, the_collection, getitem.
  rewrite Hc, Hcoll. cbn [mbind result_bind]. rewrite Hcount.
  unfold count in Hcount.
  by destruct (matched (find srv coll task_id)).
Qed.

Lemma retrieve_unique self srv coll flow_name task_name task_id record :
  is_connected self = true → collection self = Some coll →
  matched (find srv coll task_id) = [record] →
  record !! "task_name" = Some task_name →
  retrieve self srv flow_name task_name task_id
    = Return (default PyNone (record !! "result")).
Proof.
  intros Hc Hcoll Hm Hname. unfold retrieve, the_collection, getitem, count.
  rewrite Hc, Hcoll. cbn [mbind result_bind]. rewrite Hm; simpl.
  rewrite Hname. by rewrite bool_decide_eq_true_2.
Qed.

(** C8, where the code departs from it.  Connected, with the one stored
    record belonging to another task, [retrieve] of ["id2"] matches no
    record and raises [IndexError] out of [cursor[0]], not the
    [FileNotFoundError] that its own dead arm names; the stored ["id1"]
    is retrieved. *)
Theorem retrieve_absent_raises_IndexError :
  is_connected adapter = true ∧
  count (find one_result {| of_db := "selinon"; of_name := "results" |}
              (PyStr "id2")) = 0%nat ∧
  retrieve adapter one_result (PyStr "flow1") (PyStr "Task1") (PyStr "id2")
    = Raise IndexError ∧
  retrieve adapter one_result (PyStr "flow1") (PyStr "Task1") (PyStr "id1")
    = Return (PyInt 42).
Proof. split_and!; by vm_compute. Qed.

(** C9, as the code has it.  [store_error] is not implemented: on every
    instance, connected or not, and for all arguments it raises
    [NotImplementedError] and leaves the stored records as they were. *)
Theorem store_error_not_implemented
    self srv node_args flow_name task_name task_id exc_info :
  store_error self srv node_args flow_name task_name task_id exc_info
    = (Raise NotImplementedError, srv).
Proof. reflexivity. Qed.

(** C9 as stated fails: on the connected adapter [store_error] does not
    return, and nothing is recorded. *)
Lemma store_error_raises_when_connected :
  is_connected adapter = true ∧
  let call := store_error adapter one_result PyNone (PyStr "flow1")
                (PyStr "Task1") (PyStr "id1") (PyStr "Traceback") in
  ¬ (∃ u, call.1 = Return u) ∧ call.2 = one_result.
Proof. split; [done|]. split; [by intros [u ?]|done]. Qed.

End MongoProps.

(** ** Global configuration *)

Module ConfigProps.
Import Config.

(** C10.  [from_dict] leaves [trace] and [dispatcher_strategy] as they
    are for every dictionary; [predicates_module] becomes the value under
    the key ['predicates_module'] when the dictionary has that key, and
    stays otherwise; without the key the whole configuration is as it
    was. *)
Theorem from_dict_frame cls (d : gmap string pyval) :
  trace (from_dict cls d) = trace cls ∧
  dispatcher_strategy (from_dict cls d) = dispatcher_strategy cls ∧
  predicates_module (from_dict cls d)
    = default (predicates_module cls) (d !! "predicates_module") ∧
  (d !! "predicates_module" = None → from_dict cls d = cls).
Proof.
  unfold from_dict. destruct (d !! "predicates_module"); simpl; done.
Qed.

Example from_dict_sets_predicates_module :
  from_dict initial {[ "predicates_module" := PyStr "myapp.predicates";
                       "trace" := PyStr "logging" ]}
  = {| predicates_module := PyStr "myapp.predicates";
       trace := PyNone; dispatcher_strategy := PyNone |}.
Proof. by vm_compute. Qed.

End ConfigProps.

(** * Further properties of the sources *)

(** ** strategies.py: edges, steps and repeated scheduling *)

Module StrategiesMore.
Import Strategies Scheduling StrategiesProps.

Section more.
Context {node : Type}.
Implicit Types (start max step p : Q) (prev : option Q).
Implicit Types a f s fb : list node.

(** X1.  On a first scheduling ([previous_retry] is [None]) [linear_adopt]
    raises [TypeError] whatever the node lists are, and [linear_increase]
    raises [TypeError] exactly when a node or fallback node started;
    otherwise it returns [start_retry]. *)
Theorem linear_unseeded_TypeError start max step a f s fb :
  retval (linear_adopt start max step None a f s fb) = Raise TypeError ∧
  (retval (linear_increase start max step None a f s fb) = Raise TypeError
     ↔ s ≠ [] ∨ fb ≠ []) ∧
  (retval (linear_increase start max step None a f s fb) = Return start
     ↔ s = [] ∧ fb = []).
Proof.
  rewrite <- progress_nonempty. unfold linear_adopt, linear_increase.
  destruct (progress s fb) eqn:Hp; simpl.
  - split_and!; [done|done|]. split; [done|].
    intros [-> ->]. discriminate Hp.
  - split_and!; [done|done|]. split; [intros _|done].
    destruct s, fb; done.
Qed.
















End more.







End StrategiesMore.

(** ** mongo.py: connection life cycle, storing and retrieving *)

Module MongoMore.
Import Mongo MongoProps.

(** The record that [store] builds. *)
Abbreviation task_record node_args flow_name task_name task_id result_ :=
  (<["flow_name" := flow_name]> (
   <["node_args" := node_args]> (
   <["task_name" := task_name]> (
   <["task_id" := task_id]> (
   <["result" := result_]> (∅ : document)))))).

Lemma documents_insert srv coll record :
  documents (insert srv coll record) coll
  = documents srv coll ++
      [match record !! "_id" with
       | Some _ => record
       | None =>
         <["_id" := PyInt (Z.of_nat (length (documents srv coll)))]> record
       end].
Proof. unfold insert. unfold documents at 1. by rewrite lookup_insert_eq. Qed.

Lemma documents_insert_other srv coll coll' record :
  coll' ≠ coll →
  documents (insert srv coll record) coll' = documents srv coll'.
Proof.
  intros Hne. unfold insert. unfold documents at 1 3.
  rewrite lookup_insert_ne; [done|].
  destruct coll, coll'; simpl. congruence.
Qed.

(** What a query sees after an insert of a record without [_id]. *)
Lemma find_insert srv coll (record : document) task_id :
  record !! "_id" = None →
  matched (find (insert srv coll record) coll task_id)
  = matched (find srv coll task_id)
    ++ (if decide (record !! "task_id" = Some task_id) then [record] else []).
Proof.
  intros Hid. unfold find; simpl. rewrite documents_insert, Hid.
  rewrite filter_app, fmap_app. f_equal.
  rewrite filter_cons, filter_nil.
  rewrite lookup_insert_ne by done.
  destruct (decide (record !! "task_id" = Some task_id)); [|done].
  simpl. by rewrite delete_insert_eq, delete_id.
Qed.

Lemma store_connected self srv coll node_args flow_name task_name task_id res :
  is_connected self = true → collection self = Some coll →
  store self srv node_args flow_name task_name task_id res
  = (Return task_id,
     insert srv coll (task_record node_args flow_name task_name task_id res)).
Proof.
  intros Hc Hcoll. unfold store, assert, the_collection.
  by rewrite Hc, Hcoll.
Qed.

Lemma find_store self srv coll node_args flow_name task_name task_id res id :
  is_connected self = true → collection self = Some coll →
  matched
    (find (store self srv node_args flow_name task_name task_id res).2 coll id)
  = matched (find srv coll id)
    ++ (if decide (task_id = id)
        then [task_record node_args flow_name task_name task_id res]
        else []).
Proof.
  intros Hc Hcoll. rewrite (store_connected _ _ coll) by done. cbn [snd].
  rewrite find_insert by done.
  f_equal. rewrite !lookup_insert_ne by done. rewrite lookup_insert_eq.
  destruct (decide (task_id = id)) as [->|Hne].
  - by rewrite decide_True.
  - rewrite decide_False; [done|]. by intros [= ?].
Qed.

(** X10.  The connection life cycle: a new adapter is not connected;
    [connect] connects; [disconnect] disconnects, also an adapter that is
    not connected, and a second [disconnect] changes nothing; [connect]
    followed by [disconnect] gives back the new adapter; and none of the
    two touches host, port, database or collection name. *)
Theorem connection_life_cycle self db_name_ collection_name_ host_ port_ :
  is_connected (__init__ db_name_ collection_name_ host_ port_) = false ∧
  is_connected (connect self) = true ∧
  is_connected (disconnect self) = false ∧
  disconnect (disconnect self) = disconnect self ∧
  connect (connect self) = connect self ∧
  disconnect (connect (__init__ db_name_ collection_name_ host_ port_))
    = __init__ db_name_ collection_name_ host_ port_ ∧
  (host (connect self), port (connect self), db_name (connect self),
   collection_name (connect self))
    = (host self, port self, db_name self, collection_name self) ∧
  (host (disconnect self), port (disconnect self), db_name (disconnect self),
   collection_name (disconnect self))
    = (host self, port self, db_name self, collection_name self).
Proof.
  split_and!; try reflexivity.
  - unfold disconnect. by destruct (is_connected self) eqn:Hc.
  - unfold disconnect. destruct (is_connected self) eqn:Hc; [done|].
    by rewrite Hc.
  - unfold disconnect. by destruct (is_connected self).
Qed.

(** X11.  An adapter that is not connected refuses to work: [retrieve] and
    [store] raise [AssertionError], and [store] leaves the stored records
    as they were. *)
Theorem disconnected_calls_assert
    self srv node_args flow_name task_name task_id res :
  is_connected self = false →
  retrieve self srv flow_name task_name task_id = Raise AssertionError ∧
  store self srv node_args flow_name task_name task_id res
    = (Raise AssertionError, srv).
Proof.
  intros Hc. unfold retrieve, store, assert. by rewrite Hc.
Qed.

(** X12.  Store, then retrieve.  On a connected adapter whose collection
    holds no record of [task_id], [store] returns [task_id], and a
    [retrieve] of [task_id] afterwards returns the stored result when it
    names the task that stored it and raises [AssertionError] when it
    names another; the flow name that [retrieve] is given plays no part. *)
Theorem store_then_retrieve
    self srv coll node_args flow_name task_name task_id res
    flow_name' task_name' :
  is_connected self = true → collection self = Some coll →
  count (find srv coll task_id) = 0%nat →
  (store self srv node_args flow_name task_name task_id res).1
    = Return task_id ∧
  retrieve self
    (store self srv node_args flow_name task_name task_id res).2
    flow_name' task_name' task_id
  = if decide (task_name' = task_name) then Return res
    else Raise AssertionError.
Proof.
  intros Hc Hcoll Hcount.
  split; [by rewrite (store_connected _ _ coll)|].
  pose proof (find_store self srv coll node_args flow_name task_name
                task_id res task_id Hc Hcoll) as Hfind.
  unfold count in Hcount. apply nil_length_inv in Hcount.
  rewrite Hcount, decide_True, app_nil_l in Hfind by done.
  unfold retrieve, the_collection, getitem, count, assert.
  rewrite Hc, Hcoll. cbn [mbind result_bind]. rewrite Hfind.
  cbn [length Nat.ltb Nat.leb Cursor_bool negb lookup list_lookup mbind
       result_bind].
  rewrite lookup_insert_ne, lookup_insert_ne, lookup_insert_eq by done.
  destruct (decide (task_name' = task_name)) as [->|Hne].
  - rewrite bool_decide_eq_true_2 by done. cbn [mbind result_bind].
    by rewrite !lookup_insert_ne, lookup_insert_eq by done.
  - by rewrite bool_decide_eq_false_2.
Qed.

(** X13.  [store] does not replace: once a connected adapter has stored
    [task_id] twice, whatever the results, every [retrieve] of [task_id]
    raises [ValueError]. *)
Theorem store_twice_is_ambiguous
    self srv coll node_args flow_name task_name task_id res
    node_args' flow_name' task_name' res' flow_name'' task_name'' :
  is_connected self = true → collection self = Some coll →
  let srv1 := (store self srv node_args flow_name task_name task_id res).2 in
  let srv2 :=
    (store self srv1 node_args' flow_name' task_name' task_id res').2 in
  retrieve self srv2 flow_name'' task_name'' task_id = Raise ValueError.
Proof.
  intros Hc Hcoll srv1 srv2.
  apply (retrieve_ambiguous _ _ coll); [done..|].
  unfold count, srv2, srv1. rewrite !find_store by done.
  rewrite !decide_True by done. rewrite !length_app. cbn [length]. lia.
Qed.

(** X14.  [store] of one task leaves the others alone: on a connected
    adapter, after [task_id] is stored, a [retrieve] of any other id gives
    what it gave before, and the documents of every other collection are
    untouched. *)
Theorem store_leaves_other_tasks
    self srv coll node_args flow_name task_name task_id res
    flow_name' task_name' task_id' coll' :
  is_connected self = true → collection self = Some coll →
  task_id' ≠ task_id → coll' ≠ coll →
  let srv' := (store self srv node_args flow_name task_name task_id res).2 in
  retrieve self srv' flow_name' task_name' task_id'
    = retrieve self srv flow_name' task_name' task_id' ∧
  documents srv' coll' = documents srv coll'.
Proof.
  intros Hc Hcoll Hid Hne srv'. split.
  - assert (find srv' coll task_id' = find srv coll task_id') as Hfind.
    { pose proof (find_store self srv coll node_args flow_name task_name
                    task_id res task_id' Hc Hcoll) as Hm.
      rewrite decide_False, app_nil_r in Hm by done.
      fold srv' in Hm.
      destruct (find srv' coll task_id'), (find srv coll task_id').
      simpl in Hm. by subst. }
    unfold retrieve, the_collection. rewrite Hc, Hcoll.
    cbn [mbind result_bind]. by rewrite Hfind.
  - unfold srv'. rewrite (store_connected _ _ coll) by done. cbn [snd].
    by apply documents_insert_other.
Qed.

(** X15.  A single matching record decides the call: [retrieve] returns
    its [result] field, or [None] when it has none, if its [task_name] is
    the one asked for, raises [AssertionError] if it is another, and
    raises [KeyError] if the record has no [task_name]. *)
Theorem retrieve_single_record
    self srv coll flow_name task_name task_id (record : document) :
  is_connected self = true → collection self = Some coll →
  matched (find srv coll task_id) = [record] →
  retrieve self srv flow_name task_name task_id
  = match record !! "task_name" with
    | None => Raise KeyError
    | Some name =>
      if decide (task_name = name)
      then Return (default PyNone (record !! "result"))
      else Raise AssertionError
    end.
Proof.
  intros Hc Hcoll Hm. unfold retrieve, the_collection, getitem, count, assert.
  rewrite Hc, Hcoll. cbn [mbind result_bind]. rewrite Hm; simpl.
  destruct (record !! "task_name") as [name|]; [|done].
  destruct (decide (task_name = name)).
  - by rewrite bool_decide_eq_true_2.
  - by rewrite bool_decide_eq_false_2.
Qed.

(** The collection of [adapter]. *)
Abbreviation results := {| of_db := "selinon"; of_name := "results" |}.

Lemma disconnected_calls_assert_witness :
  let self := __init__ "selinon" "results" "localhost" 27017 in
  is_connected self = false ∧
  retrieve self one_result (PyStr "flow1") (PyStr "Task1") (PyStr "id1")
    = Raise AssertionError ∧
  store self one_result PyNone (PyStr "flow1") (PyStr "Task1") (PyStr "id1")
        (PyInt 7)
    = (Raise AssertionError, one_result).
Proof.
  split; [reflexivity|].
  apply (disconnected_calls_assert
           (__init__ "selinon" "results" "localhost" 27017) one_result
           PyNone (PyStr "flow1") (PyStr "Task1") (PyStr "id1") (PyInt 7)).
  reflexivity.
Defined.

Lemma store_then_retrieve_witness :
  (is_connected adapter = true ∧ collection adapter = Some results ∧
   count (find one_result results (PyStr "id2")) = 0%nat) ∧
  (store adapter one_result PyNone (PyStr "flow1") (PyStr "Task2")
         (PyStr "id2") (PyInt 7)).1 = Return (PyStr "id2") ∧
  retrieve adapter
    (store adapter one_result PyNone (PyStr "flow1") (PyStr "Task2")
           (PyStr "id2") (PyInt 7)).2
    (PyStr "another flow") (PyStr "Task2") (PyStr "id2")
  = if decide (PyStr "Task2" = PyStr "Task2") then Return (PyInt 7)
    else Raise AssertionError.
Proof.
  split; [split_and!; vm_compute; reflexivity|].
  apply (store_then_retrieve adapter one_result results PyNone
           (PyStr "flow1") (PyStr "Task2") (PyStr "id2") (PyInt 7)
           (PyStr "another flow") (PyStr "Task2"));
    vm_compute; reflexivity.
Defined.

Lemma store_twice_is_ambiguous_witness :
  (is_connected adapter = true ∧ collection adapter = Some results) ∧
  let srv1 := (store adapter ∅ PyNone (PyStr "flow1") (PyStr "Task1")
                     (PyStr "id1") (PyInt 42)).2 in
  let srv2 := (store adapter srv1 PyNone (PyStr "flow1") (PyStr "Task1")
                     (PyStr "id1") (PyInt 43)).2 in
  retrieve adapter srv2 (PyStr "flow1") (PyStr "Task1") (PyStr "id1")
    = Raise ValueError.
Proof.
  split; [split; reflexivity|].
  apply (store_twice_is_ambiguous adapter ∅ results PyNone
           (PyStr "flow1") (PyStr "Task1") (PyStr "id1") (PyInt 42)
           PyNone (PyStr "flow1") (PyStr "Task1") (PyInt 43)
           (PyStr "flow1") (PyStr "Task1"));
    reflexivity.
Defined.

Lemma store_leaves_other_tasks_witness :
  let coll' := {| of_db := "selinon"; of_name := "errors" |} in
  (is_connected adapter = true ∧ collection adapter = Some results ∧
   PyStr "id1" ≠ PyStr "id2" ∧ coll' ≠ results) ∧
  let srv' := (store adapter one_result PyNone (PyStr "flow1")
                     (PyStr "Task2") (PyStr "id2") (PyInt 7)).2 in
  retrieve adapter srv' (PyStr "flow1") (PyStr "Task1") (PyStr "id1")
    = retrieve adapter one_result (PyStr "flow1") (PyStr "Task1")
        (PyStr "id1") ∧
  documents srv' coll' = documents one_result coll'.
Proof.
  split; [split_and!; [reflexivity|reflexivity|discriminate|discriminate]|].
  apply (store_leaves_other_tasks adapter one_result results PyNone
           (PyStr "flow1") (PyStr "Task2") (PyStr "id2") (PyInt 7)
           (PyStr "flow1") (PyStr "Task1") (PyStr "id1")
           {| of_db := "selinon"; of_name := "errors" |});
    [reflexivity|reflexivity|discriminate|discriminate].
Defined.

Lemma retrieve_single_record_witness :
  let record :=
    task_record PyNone (PyStr "flow1") (PyStr "Task1") (PyStr "id1")
                (PyInt 42) in
  (is_connected adapter = true ∧ collection adapter = Some results ∧
   matched (find one_result results (PyStr "id1")) = [record]) ∧
  retrieve adapter one_result (PyStr "flow1") (PyStr "Task9") (PyStr "id1")
  = match record !! "task_name" with
    | None => Raise KeyError
    | Some name =>
      if decide (PyStr "Task9" = name)
      then Return (default PyNone (record !! "result"))
      else Raise AssertionError
    end.
Proof.
  split; [split_and!; vm_compute; reflexivity|].
  apply (retrieve_single_record adapter one_result results (PyStr "flow1")
           (PyStr "Task9") (PyStr "id1"));
    vm_compute; reflexivity.
Defined.

(** X20.  No record, no [FileNotFoundError]: [retrieve] never raises
    [FileNotFoundError], whatever the adapter, the stored records and the
    arguments are; on a connected adapter whose collection holds no record
    of [task_id] it raises [IndexError]. *)
Theorem retrieve_without_record
    self srv coll flow_name task_name task_id :
  is_connected self = true → collection self = Some coll →
  count (find srv coll task_id) = 0%nat →
  retrieve self srv flow_name task_name task_id = Raise IndexError ∧
  ∀ self' srv' flow_name' task_name' task_id',
    retrieve self' srv' flow_name' task_name' task_id'
      ≠ Raise FileNotFoundError.
Proof.
  intros Hc Hcoll Hcount. split.
  - by apply (retrieve_absent _ _ coll).
  - intros. apply retrieve_never_FileNotFoundError.
Qed.

Lemma retrieve_without_record_witness :
  (is_connected adapter = true ∧ collection adapter = Some results ∧
   count (find ∅ results (PyStr "id1")) = 0%nat) ∧
  retrieve adapter ∅ (PyStr "flow1") (PyStr "Task1") (PyStr "id1")
    = Raise IndexError ∧
  ∀ self' srv' flow_name' task_name' task_id',
    retrieve self' srv' flow_name' task_name' task_id'
      ≠ Raise FileNotFoundError.
Proof.
  split; [split_and!; reflexivity|].
  apply (retrieve_without_record adapter ∅ results (PyStr "flow1")
           (PyStr "Task1") (PyStr "id1"));
    reflexivity.
Defined.

End MongoMore.

(** ** globalConfig.py: loading more than once *)

Module ConfigMore.
Import Config.

(** X16.  Loading two dictionaries one after the other is loading the
    second laid over the first: the later [predicates_module] wins, an
    earlier one stays when the later dictionary has none, and loading the
    same dictionary again changes nothing.  Keys other than
    ['predicates_module'] never matter. *)
Theorem from_dict_twice cls (d1 d2 : gmap string pyval) :
  from_dict (from_dict cls d1) d2 = from_dict cls (d2 ∪ d1) ∧
  from_dict (from_dict cls d1) d1 = from_dict cls d1 ∧
  from_dict cls d1
    = from_dict cls (filter (λ kv, kv.1 = "predicates_module") d1).
Proof.
  unfold from_dict. split_and!.
  - rewrite lookup_union.
    destruct (d2 !! "predicates_module"), (d1 !! "predicates_module");
      simpl; by try destruct cls.
  - destruct (d1 !! "predicates_module"); simpl; [done|].
    by destruct (d1 !! "predicates_module").
  - destruct (d1 !! "predicates_module") as [v|] eqn:Hv.
    + by erewrite map_lookup_filter_Some_2.
    + by rewrite map_lookup_filter_None_2 by (by left).
Qed.

End ConfigMore.

(** ** test_lru.py: the other tests, for any keys and values

    The tests run on the cache modelled from the design document. *)

Module CachesMore.
Import Caches CachesProps.

Section more.
Context {K : Type} `{Countable K} {V : Type}.
Implicit Types (c : Cache K V) (m : gmap K (CacheEntry V)).
Implicit Types (l : list (K * CacheEntry V)) (calls : list (call K V)).

Lemma lookup_add_key c key v draw :
  value <$> entries (add c key v draw) !! key = Some v.
Proof.
  unfold add; simpl. destruct (entries c !! key); by rewrite lookup_insert_eq.
Qed.

Lemma get_held c key e :
  entries c !! key = Some e → (get c key).1 = Return (value e).
Proof. intros He. unfold get. by rewrite He. Qed.

Lemma get_absent c key :
  entries c !! key = None → get c key = (Raise CacheMissError, c).
Proof. intros He. unfold get. by rewrite He. Qed.

(** Two held keys need two slots. *)
Lemma two_keys_size m k1 k2 :
  k1 ≠ k2 → is_Some (m !! k1) → is_Some (m !! k2) → (2 ≤ base.size m)%nat.
Proof.
  intros Hne [e1 H1] [e2 H2].
  rewrite <- (insert_id m k1 e1), <- insert_delete_eq by done.
  rewrite map_size_insert_None by apply lookup_delete_eq.
  assert (base.size (delete k1 m) ≠ 0)%nat; [|lia].
  apply map_size_non_empty_iff. intros Hempty.
  assert (delete k1 m !! k2 = Some e2) as Hk2
    by (by rewrite lookup_delete_ne).
  by rewrite Hempty, lookup_empty in Hk2.
Qed.

(** X17.  A cache of one slot holds the key added last and nothing else:
    under every policy and after any calls, an [add] is followed by a hit
    on its key, with the value just added, and by a miss on every other
    key.  This is [test_one_item_miss] for all keys and policies. *)
Theorem one_slot_holds_last_added p c0 calls key v draw :
  new p 1 = Return c0 →
  let c := add (run c0 calls) key v draw in
  (get c key).1 = Return v ∧
  ∀ key', key' ≠ key → (get c key').1 = Raise CacheMissError.
Proof.
  intros (_ & Hmax & _ & Hempty)%new_inv c.
  pose proof (lookup_add_key (run c0 calls) key v draw) as Hkey.
  fold c in Hkey.
  destruct (entries c !! key) as [e|] eqn:He; [|done].
  injection Hkey as Hv. split; [by rewrite (get_held c key e), Hv|].
  intros key' Hne. destruct (entries c !! key') as [e'|] eqn:He';
    [|by rewrite get_absent].
  exfalso.
  assert (size c ≤ 1)%nat as Hsize.
  { rewrite <- Hmax, <- (run_max_cache_size c0 calls).
    change c with (step (run c0 calls) (Add key v draw)).
    apply size_step; rewrite run_max_cache_size, Hmax; [lia|].
    rewrite <- Hmax. apply size_run; [lia|].
    unfold size. rewrite Hempty, map_size_empty. lia. }
  pose proof (two_keys_size (entries c) key' key Hne) as Htwo.
  unfold size in Hsize. rewrite He, He' in Htwo.
  specialize (Htwo ltac:(eauto) ltac:(eauto)). lia.
Qed.

(** *** The order of use *)

Lemma oldest_least l x :
  oldest l = Some x →
  ∀ y, y ∈ l → (recency_rank x.2 ≤ recency_rank y.2)%nat.
Proof.
  revert x. induction l as [|z l IH]; intros x; simpl; [done|].
  destruct (oldest l) as [w|] eqn:Hw.
  - destruct (Nat.leb_spec (recency_rank z.2) (recency_rank w.2));
      intros [= <-] y [->|Hy]%elem_of_cons; try lia.
    + specialize (IH w eq_refl y Hy). lia.
    + by apply IH.
  - intros [= <-] y [->|Hy]%elem_of_cons; [lia|].
    destruct l; [by apply not_elem_of_nil in Hy|].
    by destruct (oldest_is_Some (p :: l)) as [? ?]; [|congruence].
Qed.

(** [LRU] and [FIFO] give up the one entry whose rank is below all
    others. *)
Lemma oldest_is_victim p draw m key e :
  p = LRU ∨ p = FIFO →
  m !! key = Some e →
  (∀ key' e', key' ≠ key → m !! key' = Some e' →
     (recency_rank e < recency_rank e')%nat) →
  choose_victim p draw m = Some key.
Proof.
  intros Hp He Hleast.
  assert (choose_victim p draw m = fst <$> oldest (map_to_list m)) as ->
    by (by destruct Hp as [-> | ->]).
  destruct (oldest (map_to_list m)) as [[k ek]|] eqn:Hold.
  - simpl. f_equal. destruct (decide (k = key)) as [|Hne]; [done|].
    pose proof (oldest_elem _ _ Hold) as Hin.
    apply elem_of_map_to_list in Hin.
    pose proof (oldest_least _ _ Hold (key, e)) as Hle. simpl in Hle.
    specialize (Hle ltac:(by apply elem_of_map_to_list)).
    specialize (Hleast k ek Hne Hin). lia.
  - destruct (oldest_is_Some (map_to_list m)) as [? ?]; [|congruence].
    intros Hnil. apply map_to_list_empty_iff in Hnil.
    by rewrite Hnil, lookup_empty in He.
Qed.

(** *** The calls on an explicit state *)

Lemma add_room c key v draw :
  entries c !! key = None → (size c < max_cache_size c)%nat →
  add c key v draw
  = {| cache_policy := cache_policy c; max_cache_size := max_cache_size c;
       entries := <[key := {| value := v; recency_rank := sequence c |}]>
                    (entries c);
       sequence := S (sequence c) |}.
Proof.
  intros He Hlt. unfold add, size in *. rewrite He.
  by destruct (Nat.leb_spec (max_cache_size c) (base.size (entries c)));
    [lia|].
Qed.

Lemma add_evicting c key v draw victim :
  entries c !! key = None → (max_cache_size c ≤ size c)%nat →
  choose_victim (cache_policy c) draw (entries c) = Some victim →
  add c key v draw
  = {| cache_policy := cache_policy c; max_cache_size := max_cache_size c;
       entries := <[key := {| value := v; recency_rank := sequence c |}]>
                    (delete victim (entries c));
       sequence := S (sequence c) |}.
Proof.
  intros He Hfull Hv. unfold add, size in *. rewrite He, Hv.
  by destruct (Nat.leb_spec (max_cache_size c) (base.size (entries c)));
    [|lia].
Qed.

Lemma get_used c key e :
  entries c !! key = Some e → on_access (cache_policy c) = true →
  get c key
  = (Return (value e),
     {| cache_policy := cache_policy c; max_cache_size := max_cache_size c;
        entries := <[key := {| value := value e;
                               recency_rank := sequence c |}]> (entries c);
        sequence := S (sequence c) |}).
Proof. intros He Hp. unfold get. by rewrite He, Hp. Qed.

(** Lookups and sizes of maps written out as inserts and deletes. *)
Ltac map_lookup :=
  simpl;
  repeat first
    [ rewrite lookup_insert_eq
    | rewrite lookup_insert_ne by done
    | rewrite lookup_delete_eq
    | rewrite lookup_delete_ne by done
    | rewrite lookup_empty ];
  try done.

Ltac least_rank :=
  let Hl := fresh "Hl" in
  simpl; intros ? ? ? Hl;
  repeat first
    [ apply lookup_insert_Some in Hl as [[<- <-]|[? Hl]];
      [solve [simpl; lia | done]|]
    | apply lookup_delete_Some in Hl as [? Hl]
    | rewrite lookup_empty in Hl ];
  done.

(** X18.  [test_two_items] for any three different keys.  An [LRU] cache
    of two slots that is given [k1], [k2], [k3] misses [k1] and returns
    what was stored for [k2] and [k3]; after these reads, in this order,
    adding [k1] again evicts [k2], the key read longest ago, and keeps
    [k3]. *)
Theorem lru_two_slots c0 (k1 k2 k3 : K) (v1 v2 v3 v1' : V) d1 d2 d3 d4 :
  new LRU 2 = Return c0 → k1 ≠ k2 → k1 ≠ k3 → k2 ≠ k3 →
  let c3 := run c0 [Add k1 v1 d1; Add k2 v2 d2; Add k3 v3 d3] in
  let c4 := (get c3 k1).2 in
  let c5 := (get c4 k2).2 in
  let c6 := (get c5 k3).2 in
  let c7 := add c6 k1 v1' d4 in
  (get c3 k1).1 = Raise CacheMissError ∧
  (get c4 k2).1 = Return v2 ∧
  (get c5 k3).1 = Return v3 ∧
  (get c7 k2).1 = Raise CacheMissError ∧
  (get c7 k3).1 = Return v3 ∧
  (get c7 k1).1 = Return v1'.
Proof.
  intros Hnew H12 H13 H23 c3 c4 c5 c6 c7.
  unfold new in Hnew; simpl in Hnew. injection Hnew as <-.
  assert (k2 ≠ k1) by done. assert (k3 ≠ k1) by done.
  assert (k3 ≠ k2) by done.
  assert (c3 =
          {| cache_policy := LRU; max_cache_size := 2;
             entries :=
               <[k3 := {| value := v3; recency_rank := 2 |}]> (
               delete k1 (
               <[k2 := {| value := v2; recency_rank := 1 |}]> (
               <[k1 := {| value := v1; recency_rank := 0 |}]> ∅)));
             sequence := 3 |}) as Hc3.
  { unfold c3. cbn [run foldl step].
    rewrite (add_room _ k1);
      [|map_lookup|unfold size; simpl; rewrite map_size_empty; lia].
    simpl.
    rewrite (add_room _ k2);
      [|map_lookup
       |unfold size; simpl; rewrite map_size_insert_None by map_lookup;
        rewrite map_size_empty; lia].
    simpl.
    rewrite (add_evicting _ k3 _ _ k1);
      [done|map_lookup
       |unfold size; simpl; rewrite !map_size_insert_None by map_lookup;
        rewrite map_size_empty; lia
       |apply (oldest_is_victim _ _ _ _
                 {| value := v1; recency_rank := 0 |});
        [by left|map_lookup|least_rank]]. }
  clearbody c3. subst c3.
  assert (get c4 k2 =
          (Return v2,
           {| cache_policy := LRU; max_cache_size := 2;
              entries := <[k2 := {| value := v2; recency_rank := 3 |}]>
                           (entries c4);
              sequence := 4 |})) as Hg2.
  { unfold c4. rewrite (get_absent _ k1) by map_lookup. cbn [snd].
    by rewrite (get_used _ k2 {| value := v2; recency_rank := 1 |});
      [| map_lookup |]. }
  assert (get c5 k3 =
          (Return v3,
           {| cache_policy := LRU; max_cache_size := 2;
              entries := <[k3 := {| value := v3; recency_rank := 4 |}]>
                           (entries c5);
              sequence := 5 |})) as Hg3.
  { unfold c5. rewrite Hg2. cbn [snd].
    rewrite (get_used _ k3 {| value := v3; recency_rank := 2 |});
      [done| |done].
    unfold c4. rewrite (get_absent _ k1) by map_lookup. map_lookup. }
  assert (entries c4 =
          <[k3 := {| value := v3; recency_rank := 2 |}]> (
          delete k1 (
          <[k2 := {| value := v2; recency_rank := 1 |}]> (
          <[k1 := {| value := v1; recency_rank := 0 |}]> ∅)))) as He4.
  { unfold c4. by rewrite (get_absent _ k1) by map_lookup. }
  assert (c7 =
          {| cache_policy := LRU; max_cache_size := 2;
             entries := <[k1 := {| value := v1'; recency_rank := 5 |}]>
                          (delete k2 (entries c6));
             sequence := 6 |}) as Hc7.
  { unfold c7, c6. rewrite Hg3. cbn [snd].
    rewrite (add_evicting _ k1 _ _ k2); [done| | |].
    - unfold c5. rewrite Hg2, He4. map_lookup.
    - unfold c5. rewrite Hg2, He4. unfold size. simpl.
      rewrite map_size_insert_Some by (map_lookup; eauto).
      rewrite map_size_insert_Some by (map_lookup; eauto).
      rewrite map_size_insert_None by map_lookup.
      rewrite map_size_delete_Some by (map_lookup; eauto).
      rewrite !map_size_insert_None by map_lookup.
      rewrite map_size_empty. simpl. lia.
    - unfold c5. rewrite Hg2, He4.
      apply (oldest_is_victim _ _ _ _ {| value := v2; recency_rank := 3 |});
        [by left|map_lookup|least_rank]. }
  split_and!.
  - by rewrite get_absent by map_lookup.
  - by rewrite Hg2.
  - by rewrite Hg3.
  - rewrite Hc7. by rewrite get_absent by map_lookup.
  - rewrite Hc7.
    rewrite (get_held _ k3 {| value := v3; recency_rank := 4 |}); [done|].
    unfold c6. rewrite Hg3. map_lookup.
  - rewrite Hc7.
    rewrite (get_held _ k1 {| value := v1'; recency_rank := 5 |}); [done|].
    map_lookup.
Qed.

(** *** Filling a cache *)

(** While the keys added are new and fit, the cache holds each with the
    value given and the rank of its place in the sequence. *)
Lemma fill_entries p n c0 (items : list (K * V)) d :
  new p n = Return c0 → NoDup items.*1 → (length items ≤ n)%nat →
  let c := run c0 ((λ kv, Add kv.1 kv.2 d) <$> items) in
  sequence c = length items ∧ size c = length items ∧
  (∀ i k v, items !! i = Some (k, v) →
     entries c !! k = Some {| value := v; recency_rank := i |}) ∧
  (∀ k e, entries c !! k = Some e →
     ∃ i, items !! i = Some (k, value e) ∧ recency_rank e = i).
Proof.
  intros Hnew.
  assert (sequence c0 = 0%nat) as Hseq0.
  { revert Hnew. unfold new. case_match; [done|]. by intros [= <-]. }
  apply new_inv in Hnew as (Hpos & Hmax & _ & Hempty).
  induction items as [|[k v] items IH] using rev_ind; intros Hnd Hlen c.
  { unfold c, size; simpl. rewrite Hempty, map_size_empty.
    split_and!; [done|done|done|].
    intros ??. by rewrite lookup_empty. }
  rewrite fmap_app in Hnd. apply NoDup_app in Hnd as (Hnd & Hfresh & _).
  rewrite length_app in Hlen; simpl in Hlen.
  destruct (IH Hnd ltac:(lia)) as (Hseq & Hsize & Hin & Hout).
  unfold c. rewrite fmap_app.
  change ((λ kv : K * V, Add kv.1 kv.2 d) <$> [(k, v)]) with [Add k v d].
  rewrite run_snoc. cbn [step].
  set (c' := run c0 ((λ kv, Add kv.1 kv.2 d) <$> items)) in *.
  assert (entries c' !! k = None) as Hk.
  { destruct (entries c' !! k) as [e|] eqn:He; [|done].
    destruct (Hout k e He) as (i & Hi & _).
    exfalso. apply (Hfresh k); [|simpl; left].
    apply list_elem_of_fmap. exists (k, value e).
    split; [done|]. by eapply list_elem_of_lookup_2. }
  rewrite add_room;
    [|done|rewrite Hsize; unfold c'; rewrite run_max_cache_size; lia].
  unfold size; simpl. rewrite map_size_insert_None by done.
  fold (size c'). rewrite Hseq, Hsize, length_app; simpl.
  split_and!; [lia|lia| |].
  - intros i k1 v1 [[_ Hi]|[-> [= <- <-]]]%lookup_snoc_Some.
    + rewrite lookup_insert_ne; [by apply Hin|].
      intros <-. apply (Hfresh k); [|simpl; left].
      apply list_elem_of_fmap. exists (k, v1).
      split; [done|]. by eapply list_elem_of_lookup_2.
    + by rewrite lookup_insert_eq.
  - intros k1 e [[<- <-]|[Hne He]]%lookup_insert_Some.
    + exists (length items). split; [|done].
      simpl. apply list_lookup_middle. done.
    + destruct (Hout k1 e He) as (i & Hi & Hr).
      exists i. split; [|done].
      rewrite lookup_app_l; [done|]. by eapply lookup_lt_Some.
Qed.

(** X19.  First in, first out.  An [LRU] or [FIFO] cache of [n] slots is
    filled with [n] different keys and then given one more new key: the
    key added first is a miss, every other key of the filling is returned
    with its value, and so is the new key.  This is the opening of
    [test_multiple_items] for any size, keys and values. *)
Theorem full_cache_evicts_first_added
    p n c0 k0 v0 (items : list (K * V)) k' v' d d' :
  p = LRU ∨ p = FIFO → new p n = Return c0 →
  NoDup (k0 :: items.*1) → S (length items) = n → k' ∉ (k0 :: items.*1) →
  let c := run c0 (((λ kv, Add kv.1 kv.2 d) <$> (k0, v0) :: items)
                   ++ [Add k' v' d']) in
  (get c k0).1 = Raise CacheMissError ∧
  (∀ k v, (k, v) ∈ items → (get c k).1 = Return v) ∧
  (get c k').1 = Return v'.
Proof.
  intros Hp Hnew Hnd Hlen Hnew_key c.
  destruct (fill_entries p n c0 ((k0, v0) :: items) d Hnew)
    as (Hseq & Hsize & Hin & Hout); [done|simpl; lia|].
  apply new_inv in Hnew as (Hpos & Hmax & Hpol & Hempty).
  unfold c. rewrite run_snoc. cbn [step].
  set (full := run c0 ((λ kv, Add kv.1 kv.2 d) <$> (k0, v0) :: items)) in *.
  assert (∀ k e, entries full !! k = Some e → k ∈ k0 :: items.*1) as Hkeys.
  { intros k e He. destruct (Hout k e He) as (i & Hi & _).
    change (k0 :: items.*1) with (((k0, v0) :: items).*1).
    apply list_elem_of_fmap. exists (k, value e).
    split; [done|]. by eapply list_elem_of_lookup_2. }
  assert (entries full !! k' = None) as Hk'.
  { destruct (entries full !! k') as [e|] eqn:He; [|done].
    by destruct Hnew_key; eapply Hkeys. }
  assert (k' ≠ k0) as Hne0.
  { intros ->. apply Hnew_key. left. }
  apply NoDup_cons in Hnd as [Hk0 Hnd].
  rewrite (add_evicting _ k' _ _ k0); [|done| |].
  - split_and!.
    + rewrite get_absent; [done|]. simpl.
      rewrite lookup_insert_ne by done. apply lookup_delete_eq.
    + intros k v Hkv.
      destruct (list_elem_of_lookup_1 _ _ Hkv) as [i Hi].
      rewrite (get_held _ k {| value := v; recency_rank := S i |});
        [done|]. simpl.
      assert (k ∈ items.*1) as Hk.
      { apply list_elem_of_fmap. by exists (k, v). }
      rewrite lookup_insert_ne, lookup_delete_ne.
      * by apply (Hin (S i)).
      * by intros ->.
      * intros ->. apply Hnew_key. by right.
    + rewrite (get_held _ k' {| value := v'; recency_rank := sequence full |});
        [done|]. simpl. apply lookup_insert_eq.
  - unfold full at 1. rewrite run_max_cache_size, Hmax, Hsize. simpl. lia.
  - unfold full at 1. rewrite run_policy, Hpol.
    apply (oldest_is_victim _ _ _ _ {| value := v0; recency_rank := 0 |});
      [done|by apply (Hin 0%nat)|].
    intros key' e' Hne He'. destruct (Hout key' e' He') as (i & Hi & ->).
    destruct i as [|i]; [|simpl; lia].
    simpl in Hi. by injection Hi as -> _.
Qed.

End more.

Lemma one_slot_holds_last_added_witness :
  ∃ c0 : Cache string string,
    new LRU 1 = Return c0 ∧
    let c := add (run c0 [Add "item_id1" "item1" 0%nat])
                 "item_id2" "item2" 0%nat in
    (get c "item_id2").1 = Return "item2" ∧
    ∀ key', key' ≠ "item_id2" → (get c key').1 = Raise CacheMissError.
Proof.
  eexists. split; [reflexivity|].
  apply (one_slot_holds_last_added LRU _ [Add "item_id1" "item1" 0%nat]
           "item_id2" "item2" 0%nat).
  reflexivity.
Defined.

(** The keys and values of [test_two_items]. *)
Lemma lru_two_slots_witness :
  ∃ c0 : Cache string string,
    (new LRU 2 = Return c0 ∧ "item_id1" ≠ "item_id2" ∧
     "item_id1" ≠ "item_id3" ∧ "item_id2" ≠ "item_id3") ∧
    let c3 := run c0 [Add "item_id1" "item1" 0%nat;
                      Add "item_id2" "item2" 0%nat;
                      Add "item_id3" "item3" 0%nat] in
    let c4 := (get c3 "item_id1").2 in
    let c5 := (get c4 "item_id2").2 in
    let c6 := (get c5 "item_id3").2 in
    let c7 := add c6 "item_id1" "item1" 0%nat in
    (get c3 "item_id1").1 = Raise CacheMissError ∧
    (get c4 "item_id2").1 = Return "item2" ∧
    (get c5 "item_id3").1 = Return "item3" ∧
    (get c7 "item_id2").1 = Raise CacheMissError ∧
    (get c7 "item_id3").1 = Return "item3" ∧
    (get c7 "item_id1").1 = Return "item1".
Proof.
  eexists. split; [split_and!; [reflexivity|discriminate..]|].
  apply (lru_two_slots _ "item_id1" "item_id2" "item_id3"
           "item1" "item2" "item3" "item1" 0%nat 0%nat 0%nat 0%nat);
    [reflexivity|discriminate..].
Defined.

(** A cache of three slots, filled with 0, 1, 2 and then given 3. *)
Lemma full_cache_evicts_first_added_witness :
  ∃ c0 : Cache Z string,
    (LRU = LRU ∨ LRU = FIFO) ∧ new LRU 3 = Return c0 ∧
    NoDup (0 :: [(1, "x1"); (2, "x2")].*1) ∧
    (S (length [(1, "x1"); (2, "x2")]) = 3)%nat ∧
    (3 ∉ (0 :: [(1, "x1"); (2, "x2")].*1)) ∧
    let c := run c0 (((λ kv, Add kv.1 kv.2 0%nat)
                        <$> (0, "x0") :: [(1, "x1"); (2, "x2")])
                     ++ [Add 3 "x3" 0%nat]) in
    (get c 0).1 = Raise CacheMissError ∧
    (∀ k v, (k, v) ∈ [(1, "x1"); (2, "x2")] → (get c k).1 = Return v) ∧
    (get c 3).1 = Return "x3".
Proof.
  assert (NoDup (0 :: [(1, "x1"); (2, "x2")].*1)) as Hnd.
  { simpl. repeat (apply NoDup_cons_2;
                     [rewrite ?not_elem_of_cons;
                      repeat split; done || apply not_elem_of_nil|]).
    apply NoDup_nil_2. }
  assert (3 ∉ (0 :: [(1, "x1"); (2, "x2")].*1)) as Hfresh.
  { simpl. rewrite ?not_elem_of_cons.
    repeat split; done || apply not_elem_of_nil. }
  eexists.
  split; [by left|]. split; [reflexivity|].
  split; [exact Hnd|]. split; [reflexivity|]. split; [exact Hfresh|].
  apply (full_cache_evicts_first_added LRU 3 _ 0 "x0"
           [(1, "x1"); (2, "x2")] 3 "x3" 0%nat 0%nat).
  - by left.
  - reflexivity.
  - exact Hnd.
  - reflexivity.
  - exact Hfresh.
Defined.

End CachesMore.
